(** * Shield text layout of openstreetmap-americana (src/shield_text.js part
    of src/src/shieldtest.js), embedded in Rocq.

    JavaScript numbers are modelled as real numbers: every formula below is the
    source's formula, evaluated in exact arithmetic. [Math.min] is [Rmin],
    [Math.sqrt] is [sqrt], [Math.round] rounds half up ([Int_part (x + 1/2)]).
    Strings are ASCII strings; [text.length] is [String.length]. *)

From Stdlib Require Import Reals Psatz Ascii String List.
Import ListNotations.

Open Scope R_scope.

(** ** Data model *)

(** [{width, height}] objects passed as space and text bounds. *)
Record Bounds := mkBounds { width : R; height : R }.

(** A padding object: each side may be absent ([undefined]). *)
Record Padding := mkPadding {
  top : option R;
  bottom : option R;
  left : option R;
  right : option R
}.

(** The [{scale}] object returned by a constraint function. *)
Record TextConstraint := mkTextConstraint { scale : R }.

(** A text layout constraint function [(spaceBounds, textBounds) => {scale}]. *)
Definition TextConstraintFunction := Bounds -> Bounds -> TextConstraint.

(** The [{xBaseline, yBaseline, fontPx}] object returned by the layout. *)
Record TextLayout := mkTextLayout {
  xBaseline : R;
  yBaseline : R;
  fontPx : R
}.

(** [Math.round]: the nearest integer, halves rounded up. *)
Definition Math_round (x : R) : R := IZR (Int_part (x + / 2)).

(** ** Shape constraint solver *)

Definition ellipseScale (spaceBounds textBounds : Bounds) : R :=
  let a := width spaceBounds in
  let b := height spaceBounds in
  let x0 := width textBounds in
  let y0 := height textBounds in
  (a * b) / sqrt (a * a * y0 * y0 + b * b * x0 * x0).

Definition ellipseTextConstraint : TextConstraintFunction :=
  fun spaceBounds textBounds =>
    {| scale := ellipseScale spaceBounds textBounds |}.

Definition southHalfellipseTextConstraint : TextConstraintFunction :=
  fun spaceBounds textBounds =>
    {| scale := ellipseScale spaceBounds
                  {| height := width textBounds / 2;
                     width := height textBounds |} |}.

Definition rectTextConstraint : TextConstraintFunction :=
  fun spaceBounds textBounds =>
    let scaleHeight := height spaceBounds / height textBounds in
    let scaleWidth := width spaceBounds / width textBounds in
    {| scale := Rmin scaleWidth scaleHeight |}.

Definition roundedRectTextConstraint
    (spaceBounds textBounds : Bounds) (radius : R) : TextConstraint :=
  rectTextConstraint
    {| width := width spaceBounds - radius * (2 - sqrt 2);
       height := height spaceBounds - radius * (2 - sqrt 2) |}
    textBounds.

(** ** Text metrics estimator *)

Definition widthOfChar (c : ascii) : R :=
  match c with
  (* skinny *)
  | "I"%char | "-"%char => 1 / 3
  (* numbers *)
  | "1"%char | "2"%char | "3"%char | "4"%char | "5"%char
  | "6"%char | "7"%char | "8"%char | "9"%char | "0"%char => 1 / 2.75
  (* wide *)
  | "B"%char | "C"%char | "E"%char | "H"%char | "K"%char
  | "L"%char | "M"%char | "N"%char | "O"%char | "R"%char => 1 / 1.9
  (* extra wide *)
  | "W"%char => 1 / 1.5
  (* average *)
  | _ => 1 / 2.2
  end.

(** The [for (var i in text) len += widthOfChar(text[i])] loop, left to right. *)
Fixpoint addCharWidths (len : R) (s : string) : R :=
  match s with
  | EmptyString => len
  | String c s' => addCharWidths (len + widthOfChar c) s'
  end.

Definition widthOfText (text : string) (fontSize : R) : R :=
  let len := 0 in
  (* add space between characters *)
  let len := len + (INR (String.length text) - 1) * 1 / 12 in
  let len := addCharWidths len text in
  fontSize * len.

Definition emHeightForFontSize (fontSize : R) : R := fontSize * 3 / 4.

(** ** Layout engine *)

Section Layout.

(** [Gfx.getPixelRatio()] and [Gfx.fontSizeThreshold], from the graphics
    module the layout code imports. *)
Variable PXR : R.
Variable fontSizeThreshold : R.

(** [padding.side * PXR || 0]: an absent side gives [NaN], which is falsy. *)
Definition scaledPad (p : option R) : R :=
  match p with
  | Some v => v * PXR
  | None => 0
  end.

Definition layoutShieldText (text : string) (padding : Padding) (bounds : Bounds)
    (textLayoutFunc : TextConstraintFunction) (maxFontSize : R) : TextLayout :=
  let padTop := scaledPad (top padding) in
  let padBot := scaledPad (bottom padding) in
  let padLeft := scaledPad (left padding) in
  let padRight := scaledPad (right padding) in
  let maxFont := maxFontSize * PXR in
  (* the temporary measurement canvas is allocated but never read *)
  let fontSize := fontSizeThreshold in
  let textWidth := widthOfText text fontSize in
  let textHeight := emHeightForFontSize fontSize in
  let availHeight := height bounds - padTop - padBot in
  let availWidth := width bounds - padLeft - padRight in
  let xBaseline := padLeft + availWidth / 2 in
  let textConstraint := textLayoutFunc
    {| height := availHeight; width := availWidth |}
    {| height := textHeight; width := textWidth |} in
  (* If size-to-fill shield text is too big, shrink it *)
  let fontSize := Rmin maxFont (fontSizeThreshold * scale textConstraint) in
  let textHeight := emHeightForFontSize fontSize in
  let yBaseline :=
    Math_round (padTop + (availHeight - textHeight) / 2 + textHeight) in
  {| xBaseline := xBaseline; yBaseline := yBaseline; fontPx := fontSize |}.

End Layout.

(** A shield definition, as far as the layout reads it. *)
Record ShieldTextDef := mkShieldTextDef {
  def_padding : option Padding;
  textLayoutConstraint : option TextConstraintFunction;
  def_maxFontSize : option R
}.

Definition zeroPadding : Padding :=
  {| top := Some 0; bottom := Some 0; left := Some 0; right := Some 0 |}.

(** The [{}] used when a definition has no padding. *)
Definition emptyPadding : Padding :=
  {| top := None; bottom := None; left := None; right := None |}.

Definition defaultDefForLayout : ShieldTextDef :=
  {| def_padding := Some zeroPadding;
     textLayoutConstraint := None;
     def_maxFontSize := None |}.

Definition layoutShieldTextFromDef (PXR fontSizeThreshold : R)
    (text : string) (def : option ShieldTextDef) (bounds : Bounds) : TextLayout :=
  let def := match def with
             | None => defaultDefForLayout
             | Some d => d
             end in
  let padding := match def_padding def with
                 | Some p => p
                 | None => emptyPadding
                 end in
  let textLayoutFunc := match textLayoutConstraint def with
                        | Some f => f
                        | None => rectTextConstraint
                        end in
  let maxFontSize := match def_maxFontSize def with
                     (* shield definition cannot set max size higher than default *)
                     | Some m => Rmin 14 m
                     | None => 14
                     end in
  layoutShieldText PXR fontSizeThreshold text padding bounds textLayoutFunc maxFontSize.

(** ** Compositing renderer *)

(** A CSS colour value; [None] is JavaScript's [null]. *)
Definition Color := option string.

(** The drawing attributes of a 2D graphics context that the renderer sets,
    stored as the code assigns them ([null] is [None]). *)
Record DrawState := mkDrawState {
  fillStyle : Color;
  strokeStyle : Color;
  shadowColor : Color;
  shadowBlur : option R;
  lineWidth : R;
  font : string;
  textAlign : string;
  textBaseline : string
}.

(** A text drawing call, with the attributes in force when it was made. *)
Inductive DrawCall :=
| FillText (text : string) (x y : R) (st : DrawState)
| StrokeText (text : string) (x y : R) (st : DrawState).

(** A graphics context: its attributes, its canvas width and the calls made on
    it so far, latest first. *)
Record Ctx := mkCtx {
  state : DrawState;
  canvasWidth : R;
  calls : list DrawCall
}.

Definition updState (f : DrawState -> DrawState) (ctx : Ctx) : Ctx :=
  {| state := f (state ctx); canvasWidth := canvasWidth ctx; calls := calls ctx |}.

Definition set_fillStyle (v : Color) : Ctx -> Ctx := updState (fun s =>
  mkDrawState v (strokeStyle s) (shadowColor s) (shadowBlur s) (lineWidth s)
    (font s) (textAlign s) (textBaseline s)).
Definition set_strokeStyle (v : Color) : Ctx -> Ctx := updState (fun s =>
  mkDrawState (fillStyle s) v (shadowColor s) (shadowBlur s) (lineWidth s)
    (font s) (textAlign s) (textBaseline s)).
Definition set_shadowColor (v : Color) : Ctx -> Ctx := updState (fun s =>
  mkDrawState (fillStyle s) (strokeStyle s) v (shadowBlur s) (lineWidth s)
    (font s) (textAlign s) (textBaseline s)).
Definition set_shadowBlur (v : option R) : Ctx -> Ctx := updState (fun s =>
  mkDrawState (fillStyle s) (strokeStyle s) (shadowColor s) v (lineWidth s)
    (font s) (textAlign s) (textBaseline s)).
Definition set_lineWidth (v : R) : Ctx -> Ctx := updState (fun s =>
  mkDrawState (fillStyle s) (strokeStyle s) (shadowColor s) (shadowBlur s) v
    (font s) (textAlign s) (textBaseline s)).
Definition set_font (v : string) : Ctx -> Ctx := updState (fun s =>
  mkDrawState (fillStyle s) (strokeStyle s) (shadowColor s) (shadowBlur s)
    (lineWidth s) v (textAlign s) (textBaseline s)).
Definition set_textAlign (v : string) : Ctx -> Ctx := updState (fun s =>
  mkDrawState (fillStyle s) (strokeStyle s) (shadowColor s) (shadowBlur s)
    (lineWidth s) (font s) v (textBaseline s)).
Definition set_textBaseline (v : string) : Ctx -> Ctx := updState (fun s =>
  mkDrawState (fillStyle s) (strokeStyle s) (shadowColor s) (shadowBlur s)
    (lineWidth s) (font s) (textAlign s) v).

Definition fillText (text : string) (x y : R) (ctx : Ctx) : Ctx :=
  {| state := state ctx; canvasWidth := canvasWidth ctx;
     calls := FillText text x y (state ctx) :: calls ctx |}.

Definition strokeText (text : string) (x y : R) (ctx : Ctx) : Ctx :=
  {| state := state ctx; canvasWidth := canvasWidth ctx;
     calls := StrokeText text x y (state ctx) :: calls ctx |}.

Section Renderer.

Variable PXR : R.
Variable fontSizeThreshold : R.
(** [Gfx.shieldFont], the CSS font string for a pixel size. *)
Variable shieldFont : R -> string.
(** [ShieldDef.bannerSizeH], [ShieldDef.bannerPadding], [ShieldDef.topPadding]
    and [Color.backgroundFill]. *)
Variables bannerSizeH bannerPadding topPadding : R.
Variable backgroundFill : string.

Definition drawShieldText (ctx : Ctx) (text : string) (textLayout : TextLayout) : Ctx :=
  (* Text color is set by fillStyle *)
  let ctx := set_textAlign "center" ctx in
  let ctx := set_textBaseline "alphabetic" ctx in
  let ctx := set_font (shieldFont (fontPx textLayout)) ctx in
  fillText text (xBaseline textLayout) (yBaseline textLayout) ctx.

Definition drawShieldHaloText (ctx : Ctx) (text : string) (textLayout : TextLayout) : Ctx :=
  (* Stroke color is set by strokeStyle *)
  let ctx := set_textAlign "center" ctx in
  let ctx := set_textBaseline "alphabetic" ctx in
  let ctx := set_font (shieldFont (fontPx textLayout)) ctx in
  let ctx := set_shadowColor (strokeStyle (state ctx)) ctx in
  let ctx := set_shadowBlur (Some 0) ctx in
  let ctx := set_lineWidth (2 * PXR) ctx in
  let ctx := strokeText text (xBaseline textLayout) (yBaseline textLayout) ctx in
  let ctx := set_shadowColor None ctx in
  set_shadowBlur None ctx.

Definition bannerLayout (ctx : Ctx) (text : string) : TextLayout :=
  layoutShieldTextFromDef PXR fontSizeThreshold text None
    {| width := canvasWidth ctx; height := bannerSizeH - bannerPadding |}.

Definition drawBannerText (ctx : Ctx) (text : string) (bannerIndex : R) : Ctx :=
  let textLayout := bannerLayout ctx text in
  let ctx := set_fillStyle (Some "black"%string) ctx in
  let ctx := set_font (shieldFont (fontPx textLayout)) ctx in
  let ctx := set_textBaseline "alphabetic" ctx in
  let ctx := set_textAlign "center" ctx in
  fillText text (xBaseline textLayout)
    (yBaseline textLayout + bannerIndex * bannerSizeH - bannerPadding + topPadding) ctx.

Definition drawBannerHaloText (ctx : Ctx) (text : string) (bannerIndex : R) : Ctx :=
  let textLayout := bannerLayout ctx text in
  let ctx := set_shadowColor (Some backgroundFill) ctx in
  let ctx := set_strokeStyle (shadowColor (state ctx)) ctx in
  let ctx := set_font (shieldFont (fontPx textLayout)) ctx in
  let ctx := set_textBaseline "alphabetic" ctx in
  let ctx := set_textAlign "center" ctx in
  let ctx := set_shadowBlur (Some 0) ctx in
  let ctx := set_lineWidth (2 * PXR) ctx in
  let ctx := strokeText text (xBaseline textLayout)
    (yBaseline textLayout + bannerIndex * bannerSizeH - bannerPadding + topPadding) ctx in
  let ctx := set_shadowColor None ctx in
  set_shadowBlur None ctx.

End Renderer.

(** The y coordinate of the latest text drawing call on a context. *)
Definition lastDrawnY (ctx : Ctx) : option R :=
  match calls ctx with
  | FillText _ _ y _ :: _ => Some y
  | StrokeText _ _ y _ :: _ => Some y
  | [] => None
  end.

(** The available interior and the estimated text bounds that
    [layoutShieldText] hands to its constraint function, and the scale it
    gets back. *)
Definition availBounds (PXR : R) (padding : Padding) (bounds : Bounds) : Bounds :=
  {| height := height bounds - scaledPad PXR (top padding) - scaledPad PXR (bottom padding);
     width := width bounds - scaledPad PXR (left padding) - scaledPad PXR (right padding) |}.

Definition estimatedTextBounds (fontSizeThreshold : R) (text : string) : Bounds :=
  {| height := emHeightForFontSize fontSizeThreshold;
     width := widthOfText text fontSizeThreshold |}.

Definition fittedScale (PXR fontSizeThreshold : R) (text : string) (padding : Padding)
    (bounds : Bounds) (textLayoutFunc : TextConstraintFunction) : R :=
  scale (textLayoutFunc (availBounds PXR padding bounds)
                        (estimatedTextBounds fontSizeThreshold text)).

(** [Math.ceil]: the least integer not below [x]. *)
Definition Math_ceil (x : R) : R := IZR (- Int_part (- x)).

Section Measure.

Variable shieldFont : R -> string.
(** [ctx.measureText(text).width] on a context whose [font] is the given
    CSS font string. *)
Variable measureTextWidth : string -> string -> R.

Definition calculateTextWidth (text : string) (fontSize : R) : R :=
  (* dummy canvas *)
  let font := shieldFont fontSize in
  Math_ceil (measureTextWidth font text).

End Measure.

(** A constraint function whose scale shrinks by [k] when the text bounds
    grow by a positive factor [k]. *)
Definition textHomogeneous (f : TextConstraintFunction) : Prop :=
  forall (sb tb : Bounds) (k : R), 0 < k ->
    k * scale (f sb (mkBounds (k * width tb) (k * height tb))) = scale (f sb tb).

(** Digit characters, the class [widthOfChar] gives one common width. *)
Definition isDigit (c : ascii) : bool :=
  match c with
  | "0"%char | "1"%char | "2"%char | "3"%char | "4"%char
  | "5"%char | "6"%char | "7"%char | "8"%char | "9"%char => true
  | _ => false
  end.

Fixpoint allDigits (s : string) : bool :=
  match s with
  | EmptyString => true
  | String c s' => isDigit c && allDigits s'
  end.

(** ** Properties *)

Lemma layoutShieldText_fontPx_eq (PXR fst : R) text padding bounds f mfs :
  fontPx (layoutShieldText PXR fst text padding bounds f mfs)
  = Rmin (mfs * PXR) (fst * fittedScale PXR fst text padding bounds f).
Proof. reflexivity. Qed.

(** C2: the font size of a layout is [min(maxFontSize * PXR,
    fontSizeThreshold * scale)], where [scale] is what the constraint function
    returns on the available interior and the estimated text bounds; hence it
    never exceeds the pixel-ratio-scaled maximum font size. *)
Theorem layoutShieldText_font_ceiling (PXR fst : R) (text : string)
    (padding : Padding) (bounds : Bounds) (f : TextConstraintFunction) (mfs : R) :
  fontPx (layoutShieldText PXR fst text padding bounds f mfs)
    = Rmin (mfs * PXR) (fst * fittedScale PXR fst text padding bounds f)
  /\ fontPx (layoutShieldText PXR fst text padding bounds f mfs) <= mfs * PXR.
Proof.
  rewrite layoutShieldText_fontPx_eq. split; [reflexivity | apply Rmin_l].
Qed.

(** C3: the ellipse constraint returns [(a*b) / sqrt(a²·y0² + b²·x0²)]; on
    space [{10, 5}] and text [{4, 2}] it is [50 / sqrt(100*4 + 25*16)] up to
    [1e-9]. *)
Theorem ellipseTextConstraint_formula :
  (forall a b x0 y0 : R,
     scale (ellipseTextConstraint (mkBounds a b) (mkBounds x0 y0))
     = (a * b) / sqrt (a ^ 2 * y0 ^ 2 + b ^ 2 * x0 ^ 2))
  /\ Rabs (scale (ellipseTextConstraint (mkBounds 10 5) (mkBounds 4 2))
           - 50 / sqrt (100 * 4 + 25 * 16)) <= / 1000000000.
Proof.
  split.
  - intros a b x0 y0. cbv [ellipseTextConstraint ellipseScale scale width height].
    replace (a ^ 2 * y0 ^ 2 + b ^ 2 * x0 ^ 2) with (a * a * y0 * y0 + b * b * x0 * x0)
      by ring.
    reflexivity.
  - cbv [ellipseTextConstraint ellipseScale scale width height].
    match goal with |- Rabs (?x - ?y) <= _ => replace x with y end.
    + rewrite Rminus_diag, Rabs_R0. lra.
    + replace (100 * 4 + 25 * 16) with (10 * 10 * 2 * 2 + 5 * 5 * 4 * 4) by ring.
      replace 50 with (10 * 5) by ring. reflexivity.
Qed.

(** C5: the rounded-rectangle constraint with radius 0 is the rectangle
    constraint. *)
Theorem roundedRect_radius0 (spaceBounds textBounds : Bounds) :
  roundedRectTextConstraint spaceBounds textBounds 0
  = rectTextConstraint spaceBounds textBounds.
Proof.
  destruct spaceBounds as [w h]. unfold roundedRectTextConstraint. cbn.
  rewrite !Rmult_0_l, !Rminus_0_r. reflexivity.
Qed.

(** C8: without a definition the layout uses zero padding, the rectangle
    constraint and a maximum font size of 14; a definition's [maxFontSize]
    [m] makes the maximum [min(14, m)], so it never exceeds [14 * PXR]. *)
Theorem layoutShieldTextFromDef_defaults (PXR fst : R) :
  (forall text bounds,
     layoutShieldTextFromDef PXR fst text None bounds
     = layoutShieldText PXR fst text zeroPadding bounds rectTextConstraint 14)
  /\ (forall text d bounds m,
        def_maxFontSize d = Some m ->
        layoutShieldTextFromDef PXR fst text (Some d) bounds
        = layoutShieldText PXR fst text
            (match def_padding d with Some p => p | None => emptyPadding end)
            bounds
            (match textLayoutConstraint d with Some g => g | None => rectTextConstraint end)
            (Rmin 14 m)
        /\ (0 <= PXR ->
            fontPx (layoutShieldTextFromDef PXR fst text (Some d) bounds) <= 14 * PXR)).
Proof.
  split.
  - intros text bounds. reflexivity.
  - intros text d bounds m Hm.
    assert (Heq : layoutShieldTextFromDef PXR fst text (Some d) bounds
        = layoutShieldText PXR fst text
            (match def_padding d with Some p => p | None => emptyPadding end)
            bounds
            (match textLayoutConstraint d with Some g => g | None => rectTextConstraint end)
            (Rmin 14 m)).
    { unfold layoutShieldTextFromDef. rewrite Hm. reflexivity. }
    split; [exact Heq |].
    intros HP. rewrite Heq, layoutShieldText_fontPx_eq.
    eapply Rle_trans; [apply Rmin_l |].
    apply Rmult_le_compat_r; [exact HP | apply Rmin_l].
Qed.

Lemma sqrt2_bounds : 1 < sqrt 2 < 3 / 2.
Proof.
  pose proof (sqrt_sqrt 2 ltac:(lra)) as H2.
  pose proof (sqrt_pos 2) as Hp.
  split; nra.
Qed.

Lemma div_pos (x y : R) : 0 < x -> 0 < y -> 0 < x / y.
Proof.
  intros Hx Hy. unfold Rdiv. apply Rmult_lt_0_compat; [exact Hx |].
  apply Rinv_0_lt_compat. exact Hy.
Qed.

Lemma rect_scale_pos (sb tb : Bounds) :
  0 < width sb -> 0 < height sb -> 0 < width tb -> 0 < height tb ->
  0 < scale (rectTextConstraint sb tb).
Proof.
  intros Hw Hh Htw Hth. cbn.
  apply Rmin_glb_lt; apply div_pos; assumption.
Qed.

Lemma ellipseScale_pos (sb tb : Bounds) :
  0 < width sb -> 0 < height sb -> 0 < width tb -> 0 < height tb ->
  0 < ellipseScale sb tb.
Proof.
  intros Hw Hh Htw Hth. unfold ellipseScale.
  apply div_pos.
  - apply Rmult_lt_0_compat; assumption.
  - apply sqrt_lt_R0. apply Rplus_lt_0_compat;
      repeat apply Rmult_lt_0_compat; assumption.
Qed.

(** C4 (as the code has it): the rectangle, ellipse and south-half-ellipse
    constraints give a positive scale on positive bounds; the rounded-rectangle
    constraint does when the corner inset [radius * (2 - sqrt 2)] is smaller
    than the space's width and height. *)
Theorem constraint_scales_positive (sb tb : Bounds) (radius : R)
    (Hw : 0 < width sb) (Hh : 0 < height sb)
    (Htw : 0 < width tb) (Hth : 0 < height tb) :
  0 < scale (rectTextConstraint sb tb)
  /\ 0 < scale (ellipseTextConstraint sb tb)
  /\ 0 < scale (southHalfellipseTextConstraint sb tb)
  /\ (radius * (2 - sqrt 2) < width sb ->
      radius * (2 - sqrt 2) < height sb ->
      0 < scale (roundedRectTextConstraint sb tb radius)).
Proof.
  split; [apply rect_scale_pos; assumption |].
  split; [apply ellipseScale_pos; assumption |].
  split; [apply ellipseScale_pos; cbn; lra |].
  intros Hrw Hrh. unfold roundedRectTextConstraint.
  apply rect_scale_pos; cbn; lra.
Qed.

Lemma constraint_scales_positive_witness :
  (0 < 10 /\ 0 < 5 /\ 0 < 4 /\ 0 < 2)
  /\ 0 < scale (roundedRectTextConstraint (mkBounds 10 5) (mkBounds 4 2) 1).
Proof.
  split; [lra |].
  pose proof sqrt2_bounds as Hs.
  apply (constraint_scales_positive (mkBounds 10 5) (mkBounds 4 2) 1);
    cbn; lra.
Defined.

(** C4 fails for the rounded rectangle: space [{10, 10}], text [{1, 1}] and
    radius 100 give a negative scale. *)
Lemma roundedRect_large_radius_negative :
  scale (roundedRectTextConstraint (mkBounds 10 10) (mkBounds 1 1) 100) < 0.
Proof.
  pose proof sqrt2_bounds as Hs.
  cbv [roundedRectTextConstraint rectTextConstraint scale width height].
  eapply Rle_lt_trans; [apply Rmin_l |].
  unfold Rdiv. rewrite Rinv_1, Rmult_1_r. lra.
Qed.

Lemma widthOfChar_digit (c : ascii) :
  isDigit c = true -> widthOfChar c = 1 / 2.75.
Proof.
  destruct c as [[] [] [] [] [] [] [] []]; cbn; congruence.
Qed.

Lemma addCharWidths_digits (len : R) (s : string) :
  allDigits s = true ->
  addCharWidths len s = len + INR (String.length s) * (1 / 2.75).
Proof.
  revert len. induction s as [| c s IH]; intros len Hs; cbn [addCharWidths String.length].
  - cbn. ring.
  - cbn [allDigits] in Hs. apply andb_prop in Hs as [Hc Hs].
    rewrite IH by exact Hs. rewrite widthOfChar_digit by exact Hc.
    rewrite S_INR. ring.
Qed.

(** C6: digit strings of equal length have equal estimated widths at every
    font size, so ["111"] and ["222"] agree; ["111"] and ["WWW"] differ at
    every nonzero font size, in particular at the positive reference size
    [fontSizeThreshold] that [layoutShieldText] passes. *)
Theorem digit_width_equivalence (f : R) :
  (forall s1 s2 : string,
     allDigits s1 = true -> allDigits s2 = true ->
     String.length s1 = String.length s2 ->
     widthOfText s1 f = widthOfText s2 f)
  /\ widthOfText "111" f = widthOfText "222" f
  /\ (f <> 0 -> widthOfText "111" f <> widthOfText "WWW" f).
Proof.
  assert (Hgen : forall s1 s2 : string,
     allDigits s1 = true -> allDigits s2 = true ->
     String.length s1 = String.length s2 ->
     widthOfText s1 f = widthOfText s2 f).
  { intros s1 s2 H1 H2 Hl. unfold widthOfText.
    rewrite !addCharWidths_digits by assumption. rewrite Hl. reflexivity. }
  split; [exact Hgen |].
  split; [apply Hgen; reflexivity |].
  intros Hf. unfold widthOfText. cbn. intros Heq.
  apply Rmult_eq_reg_l in Heq; [| exact Hf]. lra.
Qed.

Lemma digit_width_equivalence_witness :
  widthOfText "111" 1 = widthOfText "222" 1
  /\ widthOfText "111" 1 <> widthOfText "WWW" 1.
Proof.
  destruct (digit_width_equivalence 1) as [_ [H1 H2]].
  split; [exact H1 | apply H2; lra].
Defined.


(** With reference size [fst], the text ["1"] in a [3 fst] square with no
    padding has rectangle scale 4. *)
Lemma fittedScale_one_in_square (PXR fst : R) :
  0 < fst ->
  fittedScale PXR fst "1" zeroPadding (mkBounds (3 * fst) (3 * fst)) rectTextConstraint = 4.
Proof.
  intros Hf.
  cbv [fittedScale availBounds estimatedTextBounds rectTextConstraint scaledPad
       widthOfText emHeightForFontSize scale width height top bottom left right zeroPadding].
  cbn [addCharWidths String.length INR widthOfChar].
  replace 2.75 with (11 / 4) by lra.
  replace ((3 * fst - 0 * PXR - 0 * PXR) / (fst * (0 + (1 - 1) * 1 / 12 + 1 / (11 / 4))))
    with (33 / 4) by (field; lra).
  replace ((3 * fst - 0 * PXR - 0 * PXR) / (fst * 3 / 4)) with 4 by (field; lra).
  apply Rmin_right. lra.
Qed.

(** For every positive pixel ratio and reference size, fitting grows text
    above the reference size when the shape has room: ["1"] in a
    [3 fst] square has scale 4, and with maximum font size [2 fst / PXR] the
    layout's font size is [2 fst], not [min(2 fst, fst) = fst]. *)
Lemma fit_exceeds_reference_everywhere (PXR fst : R) :
  0 < PXR -> 0 < fst ->
  1 <= fittedScale PXR fst "1" zeroPadding (mkBounds (3 * fst) (3 * fst)) rectTextConstraint
  /\ fontPx (layoutShieldText PXR fst "1" zeroPadding (mkBounds (3 * fst) (3 * fst))
               rectTextConstraint (2 * fst / PXR))
     <> Rmin (2 * fst / PXR * PXR) fst.
Proof.
  intros HP Hf. rewrite layoutShieldText_fontPx_eq, fittedScale_one_in_square by exact Hf.
  split; [lra |].
  replace (2 * fst / PXR * PXR) with (2 * fst) by (field; lra).
  rewrite Rmin_left by lra. rewrite Rmin_right by lra. lra.
Qed.

(** C1 (as the code has it): when the constraint scale [s] is at least 1 the
    font size is [min(maxFontSize * PXR, fontSizeThreshold * s)], which is at
    least [min(maxFontSize * PXR, fontSizeThreshold)]: fitting grows text
    beyond the reference size, up to the scaled maximum. *)
Theorem layoutShieldText_fits_unscaled (PXR fst : R) (text : string)
    (padding : Padding) (bounds : Bounds) (f : TextConstraintFunction) (mfs : R)
    (Hfst : 0 <= fst)
    (Hfit : 1 <= fittedScale PXR fst text padding bounds f) :
  fontPx (layoutShieldText PXR fst text padding bounds f mfs)
    = Rmin (mfs * PXR) (fst * fittedScale PXR fst text padding bounds f)
  /\ Rmin (mfs * PXR) fst <= fontPx (layoutShieldText PXR fst text padding bounds f mfs).
Proof.
  rewrite layoutShieldText_fontPx_eq. split; [reflexivity |].
  apply Rmin_glb; [apply Rmin_l |].
  eapply Rle_trans; [apply Rmin_r | nra].
Qed.

Lemma layoutShieldText_fits_unscaled_witness :
  (0 <= 12 /\ 1 <= fittedScale 1 12 "1" zeroPadding (mkBounds 36 36)
                      (fun _ _ => {| scale := 2 |}))
  /\ fontPx (layoutShieldText 1 12 "1" zeroPadding (mkBounds 36 36)
               (fun _ _ => {| scale := 2 |}) 14)
     = Rmin (14 * 1) (12 * 2).
Proof.
  split; [cbn; lra |].
  apply (layoutShieldText_fits_unscaled 1 12 "1" zeroPadding (mkBounds 36 36)
           (fun _ _ => {| scale := 2 |}) 14); cbn; lra.
Defined.

(** C1 fails: at pixel ratio 1, reference size 12 and the default maximum 14,
    ["1"] in a 36 x 36 area fits with scale 4 and is laid out at 14, not at
    [min(14, 12) = 12]. *)
Lemma layout_fit_exceeds_reference :
  1 <= fittedScale 1 12 "1" zeroPadding (mkBounds 36 36) rectTextConstraint
  /\ fontPx (layoutShieldText 1 12 "1" zeroPadding (mkBounds 36 36) rectTextConstraint 14)
     <> Rmin (14 * 1) 12.
Proof.
  replace 36 with (3 * 12) by lra.
  rewrite layoutShieldText_fontPx_eq, fittedScale_one_in_square by lra.
  split; [lra |].
  rewrite Rmin_left by lra. rewrite Rmin_right by lra. lra.
Qed.

(** C10: the empty string's estimated width is [-fontSize/12], negative for
    every positive font size; laid out with the rectangle constraint in an
    area of positive available width, it gets a negative font size. *)
Theorem empty_text_negative_font (PXR fst mfs : R) (padding : Padding) (bounds : Bounds)
    (Hfst : 0 < fst) (Havail : 0 < width (availBounds PXR padding bounds)) :
  (forall f : R, widthOfText "" f = - f / 12)
  /\ (forall f : R, 0 < f -> widthOfText "" f < 0)
  /\ fontPx (layoutShieldText PXR fst "" padding bounds rectTextConstraint mfs) < 0.
Proof.
  assert (Hw : forall f : R, widthOfText "" f = - f / 12).
  { intros f. unfold widthOfText. cbn [addCharWidths String.length INR]. field. }
  split; [exact Hw |]. split; [intros f Hf; rewrite Hw; lra |].
  rewrite layoutShieldText_fontPx_eq.
  assert (Hs : fittedScale PXR fst "" padding bounds rectTextConstraint < 0).
  { unfold fittedScale, rectTextConstraint. cbn [scale].
    eapply Rle_lt_trans; [apply Rmin_l |].
    unfold estimatedTextBounds. cbn [width]. rewrite Hw.
    unfold Rdiv at 1. apply Rmult_pos_neg; [exact Havail |].
    apply Rinv_lt_0_compat. lra. }
  eapply Rle_lt_trans; [apply Rmin_r |]. nra.
Qed.

Lemma empty_text_negative_font_witness :
  (0 < 12 /\ 0 < width (availBounds 1 zeroPadding (mkBounds 10 10)))
  /\ fontPx (layoutShieldText 1 12 "" zeroPadding (mkBounds 10 10) rectTextConstraint 14) < 0.
Proof.
  split; [cbn; lra |].
  apply (empty_text_negative_font 1 12 14 zeroPadding (mkBounds 10 10)); cbn; lra.
Defined.

Section RendererFacts.

Variable PXR : R.
Variable fontSizeThreshold : R.
Variable shieldFont : R -> string.
Variables bannerSizeH bannerPadding topPadding : R.
Variable backgroundFill : string.

(** C7: banner text, filled or outlined, is drawn at the baseline of the
    layout computed for the banner area plus
    [bannerIndex * bannerSizeH - bannerPadding + topPadding]: at index 0 the
    offset is [-bannerPadding + topPadding], and each further index adds one
    [bannerSizeH]. *)
Theorem banner_baseline_offset (ctx : Ctx) (text : string) (i : R) :
  let base := yBaseline (bannerLayout PXR fontSizeThreshold bannerSizeH bannerPadding ctx text) in
  let drawFill := drawBannerText PXR fontSizeThreshold shieldFont
                    bannerSizeH bannerPadding topPadding ctx text in
  let drawHalo := drawBannerHaloText PXR fontSizeThreshold shieldFont
                    bannerSizeH bannerPadding topPadding backgroundFill ctx text in
  lastDrawnY (drawFill i) = Some (base + i * bannerSizeH - bannerPadding + topPadding)
  /\ lastDrawnY (drawHalo i) = Some (base + i * bannerSizeH - bannerPadding + topPadding)
  /\ lastDrawnY (drawFill 0) = Some (base + (- bannerPadding + topPadding))
  /\ lastDrawnY (drawHalo 0) = Some (base + (- bannerPadding + topPadding))
  /\ lastDrawnY (drawFill (i + 1))
     = option_map (fun y => y + bannerSizeH) (lastDrawnY (drawFill i))
  /\ lastDrawnY (drawHalo (i + 1))
     = option_map (fun y => y + bannerSizeH) (lastDrawnY (drawHalo i)).
Proof.
  cbn zeta. cbv [drawBannerText drawBannerHaloText lastDrawnY fillText strokeText
                 set_fillStyle set_strokeStyle set_shadowColor set_shadowBlur
                 set_lineWidth set_font set_textAlign set_textBaseline updState calls
                 canvasWidth option_map].
  repeat split; f_equal; ring.
Qed.

(** C9: the halo text is outlined at the layout's position, in the layout's
    font size, with the shadow colour set to the context's stroke colour, a
    shadow blur of 0 and a line width of [2 * PXR]; afterwards the context's
    shadow colour and blur are [null]. *)
Theorem drawShieldHaloText_shadow_reset (ctx : Ctx) (text : string) (layout : TextLayout) :
  let ctx' := drawShieldHaloText PXR shieldFont ctx text layout in
  shadowColor (state ctx') = None
  /\ shadowBlur (state ctx') = None
  /\ exists st : DrawState,
       calls ctx' = StrokeText text (xBaseline layout) (yBaseline layout) st :: calls ctx
       /\ shadowColor st = strokeStyle (state ctx)
       /\ strokeStyle st = strokeStyle (state ctx)
       /\ shadowBlur st = Some 0
       /\ font st = shieldFont (fontPx layout)
       /\ lineWidth st = 2 * PXR.
Proof.
  cbn. split; [reflexivity |]. split; [reflexivity |].
  eexists. repeat split; reflexivity.
Qed.

End RendererFacts.

Lemma layoutShieldTextFromDef_defaults_witness :
  layoutShieldTextFromDef 1 12 "1"
    (Some (mkShieldTextDef None None (Some 20))) (mkBounds 36 36)
  = layoutShieldText 1 12 "1" emptyPadding (mkBounds 36 36) rectTextConstraint (Rmin 14 20)
  /\ fontPx (layoutShieldTextFromDef 1 12 "1"
               (Some (mkShieldTextDef None None (Some 20))) (mkBounds 36 36)) <= 14 * 1.
Proof.
  destruct (layoutShieldTextFromDef_defaults 1 12) as [_ H].
  destruct (H "1"%string (mkShieldTextDef None None (Some 20)) (mkBounds 36 36) 20 eq_refl)
    as [H1 H2].
  split; [exact H1 | apply H2; lra].
Defined.

(** ** Further properties of the layout engine *)

(** A padding object with every side absent lays out like zero padding, and a
    definition without [padding] like one with zero padding. *)
Theorem missing_padding_is_zero (PXR fst : R) (text : string) (bounds : Bounds)
    (f : TextConstraintFunction) (mfs : R) :
  layoutShieldText PXR fst text emptyPadding bounds f mfs
  = layoutShieldText PXR fst text zeroPadding bounds f mfs
  /\ (forall (c : option TextConstraintFunction) (m : option R),
        layoutShieldTextFromDef PXR fst text (Some (mkShieldTextDef None c m)) bounds
        = layoutShieldTextFromDef PXR fst text (Some (mkShieldTextDef (Some zeroPadding) c m)) bounds).
Proof.
  assert (H : layoutShieldText PXR fst text emptyPadding bounds f mfs
              = layoutShieldText PXR fst text zeroPadding bounds f mfs).
  { unfold layoutShieldText, zeroPadding, emptyPadding.
    cbn [scaledPad top bottom left right]. rewrite !Rmult_0_l. reflexivity. }
  split; [exact H |].
  intros c m. unfold layoutShieldTextFromDef. cbn [def_padding].
  unfold layoutShieldText, zeroPadding, emptyPadding.
  cbn [scaledPad top bottom left right]. rewrite !Rmult_0_l. reflexivity.
Qed.

(** The x baseline is the middle of the available width: as far from the left
    padding as from the right one, whatever the text, constraint and maximum
    font size. *)
Theorem xBaseline_centered (PXR fst : R) (padding : Padding) (bounds : Bounds)
    (text1 text2 : string) (f1 f2 : TextConstraintFunction) (m1 m2 : R) :
  let l := layoutShieldText PXR fst text1 padding bounds f1 m1 in
  xBaseline l - scaledPad PXR (left padding)
    = (width bounds - scaledPad PXR (right padding)) - xBaseline l
  /\ xBaseline l = xBaseline (layoutShieldText PXR fst text2 padding bounds f2 m2).
Proof. cbn zeta. unfold layoutShieldText. cbn [xBaseline]. split; [field | reflexivity]. Qed.

Lemma Math_round_spec (x : R) :
  exists z : Z, Math_round x = IZR z /\ x - / 2 < Math_round x <= x + / 2.
Proof.
  exists (Int_part (x + / 2)). unfold Math_round.
  destruct (base_Int_part (x + / 2)) as [H1 H2].
  split; [reflexivity | lra].
Qed.

(** The y baseline is an integer, within half a pixel of the baseline that
    centres the final text height in the available height. *)
Theorem yBaseline_integer_centered (PXR fst : R) (text : string) (padding : Padding)
    (bounds : Bounds) (f : TextConstraintFunction) (mfs : R) :
  let l := layoutShieldText PXR fst text padding bounds f mfs in
  let padTop := scaledPad PXR (top padding) in
  let availHeight := height (availBounds PXR padding bounds) in
  let textHeight := emHeightForFontSize (fontPx l) in
  let exact := padTop + (availHeight - textHeight) / 2 + textHeight in
  exists z : Z, yBaseline l = IZR z /\ exact - / 2 < yBaseline l <= exact + / 2.
Proof.
  cbn zeta. unfold layoutShieldText. cbn [yBaseline fontPx].
  apply Math_round_spec.
Qed.

(** A definition's [maxFontSize] of 14 or more changes nothing: the layout is
    the one without it. *)
Theorem large_def_maxFontSize_ignored (PXR fst : R) (text : string) (bounds : Bounds)
    (p : option Padding) (c : option TextConstraintFunction) (m : R) (Hm : 14 <= m) :
  layoutShieldTextFromDef PXR fst text (Some (mkShieldTextDef p c (Some m))) bounds
  = layoutShieldTextFromDef PXR fst text (Some (mkShieldTextDef p c None)) bounds.
Proof. unfold layoutShieldTextFromDef. cbn. rewrite Rmin_left by exact Hm. reflexivity. Qed.

Lemma large_def_maxFontSize_ignored_witness :
  14 <= 20
  /\ layoutShieldTextFromDef 1 12 "1" (Some (mkShieldTextDef None None (Some 20))) (mkBounds 36 36)
     = layoutShieldTextFromDef 1 12 "1" (Some (mkShieldTextDef None None None)) (mkBounds 36 36).
Proof. split; [lra | apply large_def_maxFontSize_ignored; lra]. Defined.

Lemma Rmin_le_compat (a b c d : R) : a <= c -> b <= d -> Rmin a b <= Rmin c d.
Proof. intros H1 H2. apply Rmin_glb; [eapply Rle_trans; [apply Rmin_l | exact H1]
                                   | eapply Rle_trans; [apply Rmin_r | exact H2]]. Qed.

(** The font size is nondecreasing in the maximum font size and, for a
    non-negative reference size, in the scale the constraint returns. *)
Theorem fontPx_monotone (PXR fst : R) (text : string) (padding : Padding) (bounds : Bounds)
    (f1 f2 : TextConstraintFunction) (m1 m2 : R)
    (HP : 0 <= PXR) (Hfst : 0 <= fst) (Hm : m1 <= m2)
    (Hs : fittedScale PXR fst text padding bounds f1 <= fittedScale PXR fst text padding bounds f2) :
  fontPx (layoutShieldText PXR fst text padding bounds f1 m1)
  <= fontPx (layoutShieldText PXR fst text padding bounds f2 m2).
Proof.
  rewrite !layoutShieldText_fontPx_eq. apply Rmin_le_compat.
  - apply Rmult_le_compat_r; assumption.
  - apply Rmult_le_compat_l; assumption.
Qed.

Lemma fontPx_monotone_witness :
  (0 <= 1 /\ 0 <= 12 /\ 10 <= 14
   /\ fittedScale 1 12 "1" zeroPadding (mkBounds 36 36) (fun _ _ => {| scale := 1 |})
      <= fittedScale 1 12 "1" zeroPadding (mkBounds 36 36) (fun _ _ => {| scale := 2 |}))
  /\ fontPx (layoutShieldText 1 12 "1" zeroPadding (mkBounds 36 36) (fun _ _ => {| scale := 1 |}) 10)
     <= fontPx (layoutShieldText 1 12 "1" zeroPadding (mkBounds 36 36) (fun _ _ => {| scale := 2 |}) 14).
Proof.
  split; [cbn; lra |].
  apply fontPx_monotone; cbn; lra.
Defined.

(** ** Further properties of the shape constraint solver *)

Lemma div_mul_cancel (x y : R) : 0 < y -> x / y * y = x.
Proof. intros Hy. field. lra. Qed.

(** The rectangle scale is the largest that fits: on positive bounds the
    scaled text fits both sides, and touches at least one of them. *)
Theorem rect_scale_tight (sb tb : Bounds)
    (Hw : 0 < width sb) (Hh : 0 < height sb) (Htw : 0 < width tb) (Hth : 0 < height tb) :
  let s := scale (rectTextConstraint sb tb) in
  s * width tb <= width sb /\ s * height tb <= height sb
  /\ (s * width tb = width sb \/ s * height tb = height sb).
Proof.
  cbn. unfold Rmin.
  destruct (Rle_dec (width sb / width tb) (height sb / height tb)) as [Hle | Hgt].
  - rewrite div_mul_cancel by exact Htw.
    split; [lra |]. split; [| left; reflexivity].
    eapply Rle_trans; [apply Rmult_le_compat_r; [lra | exact Hle] |].
    rewrite div_mul_cancel by exact Hth. lra.
  - rewrite div_mul_cancel by exact Hth.
    split; [| split; [lra | right; reflexivity]].
    eapply Rle_trans; [apply Rmult_le_compat_r; [lra | left; apply Rnot_le_lt, Hgt] |].
    rewrite div_mul_cancel by exact Htw. lra.
Qed.

Lemma rect_scale_tight_witness :
  (0 < 10 /\ 0 < 5 /\ 0 < 4 /\ 0 < 2)
  /\ scale (rectTextConstraint (mkBounds 10 5) (mkBounds 4 2)) * 4 <= 10.
Proof.
  split; [lra |].
  destruct (rect_scale_tight (mkBounds 10 5) (mkBounds 4 2)) as [H _]; cbn in *; lra.
Defined.

Lemma ellipseScale_on_boundary (a b x0 y0 : R) :
  0 < a -> 0 < b -> 0 < x0 -> 0 < y0 ->
  let s := ellipseScale (mkBounds a b) (mkBounds x0 y0) in
  (s * x0) ^ 2 / a ^ 2 + (s * y0) ^ 2 / b ^ 2 = 1.
Proof.
  intros Ha Hb Hx Hy. cbv zeta. unfold ellipseScale. cbn [width height].
  set (D := a * a * y0 * y0 + b * b * x0 * x0).
  assert (HD : 0 < D) by (unfold D; apply Rplus_lt_0_compat;
                          repeat apply Rmult_lt_0_compat; assumption).
  pose proof (sqrt_lt_R0 D HD) as Hq.
  pose proof (sqrt_sqrt D (Rlt_le 0 D HD)) as Hsq.
  set (q := sqrt D) in *.
  transitivity (D / (q * q)).
  - unfold D. field. lra.
  - rewrite Hsq. field. lra.
Qed.

(** The ellipse scale puts the corner of the scaled text box on the ellipse
    inscribed in the space; the south-half-ellipse scale does the same for the
    text box turned by 90 degrees and halved ([textBounds.height] wide,
    [textBounds.width / 2] high). *)
Theorem ellipse_corner_on_boundary (sb tb : Bounds)
    (Hw : 0 < width sb) (Hh : 0 < height sb) (Htw : 0 < width tb) (Hth : 0 < height tb) :
  let s := scale (ellipseTextConstraint sb tb) in
  let t := scale (southHalfellipseTextConstraint sb tb) in
  (s * width tb) ^ 2 / width sb ^ 2 + (s * height tb) ^ 2 / height sb ^ 2 = 1
  /\ (t * height tb) ^ 2 / width sb ^ 2 + (t * (width tb / 2)) ^ 2 / height sb ^ 2 = 1.
Proof.
  destruct sb as [a b], tb as [x0 y0]. cbn [width height] in *. cbv zeta.
  split.
  - apply (ellipseScale_on_boundary a b x0 y0); assumption.
  - apply (ellipseScale_on_boundary a b y0 (x0 / 2)); lra.
Qed.

Lemma ellipse_corner_on_boundary_witness :
  (0 < 10 /\ 0 < 5 /\ 0 < 4 /\ 0 < 2)
  /\ (scale (ellipseTextConstraint (mkBounds 10 5) (mkBounds 4 2)) * 4) ^ 2 / 10 ^ 2
     + (scale (ellipseTextConstraint (mkBounds 10 5) (mkBounds 4 2)) * 2) ^ 2 / 5 ^ 2 = 1.
Proof.
  split; [lra |].
  destruct (ellipse_corner_on_boundary (mkBounds 10 5) (mkBounds 4 2)) as [H _];
    cbn [width height]; try lra.
  exact H.
Defined.

(** A larger corner radius never gives a larger rounded-rectangle scale. *)
Theorem roundedRect_antitone_radius (sb tb : Bounds) (r1 r2 : R)
    (Htw : 0 < width tb) (Hth : 0 < height tb) (Hr : r1 <= r2) :
  scale (roundedRectTextConstraint sb tb r2) <= scale (roundedRectTextConstraint sb tb r1).
Proof.
  pose proof sqrt2_bounds as Hs.
  unfold roundedRectTextConstraint, rectTextConstraint. cbn [scale width height].
  apply Rmin_le_compat; unfold Rdiv; apply Rmult_le_compat_r;
    try (left; apply Rinv_0_lt_compat; assumption); nra.
Qed.

Lemma roundedRect_antitone_radius_witness :
  (0 < 4 /\ 0 < 2 /\ 1 <= 2)
  /\ scale (roundedRectTextConstraint (mkBounds 10 5) (mkBounds 4 2) 2)
     <= scale (roundedRectTextConstraint (mkBounds 10 5) (mkBounds 4 2) 1).
Proof. split; [lra | apply roundedRect_antitone_radius; cbn; lra]. Defined.

Lemma Rmin_mult_pos (k a b : R) : 0 < k -> k * Rmin a b = Rmin (k * a) (k * b).
Proof.
  intros Hk. unfold Rmin.
  destruct (Rle_dec a b), (Rle_dec (k * a) (k * b)); try reflexivity; nra.
Qed.

Lemma mult_div_mult_cancel (k x y : R) : 0 < k -> k * (x / (k * y)) = x / y.
Proof.
  intros Hk. unfold Rdiv. rewrite Rinv_mult.
  replace (k * (x * (/ k * / y))) with ((k * / k) * (x * / y)) by ring.
  rewrite Rinv_r by lra. ring.
Qed.

Lemma rect_homogeneous : textHomogeneous rectTextConstraint.
Proof.
  intros sb tb k Hk. cbn [rectTextConstraint scale width height].
  rewrite Rmin_mult_pos by exact Hk. rewrite !mult_div_mult_cancel by exact Hk.
  reflexivity.
Qed.

Lemma ellipseScale_homogeneous (sb : Bounds) (x y k : R) :
  0 < k -> k * ellipseScale sb (mkBounds (k * x) (k * y)) = ellipseScale sb (mkBounds x y).
Proof.
  intros Hk. unfold ellipseScale. cbn [width height].
  set (a := width sb). set (b := height sb).
  replace (a * a * (k * y) * (k * y) + b * b * (k * x) * (k * x))
    with ((k * k) * (a * a * y * y + b * b * x * x)) by ring.
  rewrite sqrt_mult_alt by nra. rewrite sqrt_square by lra.
  apply mult_div_mult_cancel. exact Hk.
Qed.

Lemma ellipse_homogeneous : textHomogeneous ellipseTextConstraint.
Proof.
  intros sb [x y] k Hk. cbn [ellipseTextConstraint scale width height].
  apply ellipseScale_homogeneous. exact Hk.
Qed.

Lemma southHalfellipse_homogeneous : textHomogeneous southHalfellipseTextConstraint.
Proof.
  intros sb [x y] k Hk. cbn [southHalfellipseTextConstraint scale width height].
  replace (k * x / 2) with (k * (x / 2)) by (field; lra).
  apply ellipseScale_homogeneous. exact Hk.
Qed.

Lemma roundedRect_homogeneous (radius : R) :
  textHomogeneous (fun sb tb => roundedRectTextConstraint sb tb radius).
Proof. intros sb tb k Hk. unfold roundedRectTextConstraint. apply rect_homogeneous, Hk. Qed.

(** Scaling the text bounds by a positive factor [k] divides the scale of the
    rectangle, ellipse, south-half-ellipse and rounded-rectangle constraints
    by [k]. *)
Theorem constraints_text_homogeneous :
  textHomogeneous rectTextConstraint
  /\ textHomogeneous ellipseTextConstraint
  /\ textHomogeneous southHalfellipseTextConstraint
  /\ (forall radius : R, textHomogeneous (fun sb tb => roundedRectTextConstraint sb tb radius)).
Proof.
  split; [exact rect_homogeneous |]. split; [exact ellipse_homogeneous |].
  split; [exact southHalfellipse_homogeneous | exact roundedRect_homogeneous].
Qed.

Lemma estimatedTextBounds_scale (fst : R) (text : string) :
  estimatedTextBounds fst text
  = mkBounds (fst * width (estimatedTextBounds 1 text))
             (fst * height (estimatedTextBounds 1 text)).
Proof.
  unfold estimatedTextBounds, widthOfText, emHeightForFontSize. cbn [width height].
  f_equal; [ring | lra].
Qed.

(** With a constraint whose scale is inversely proportional to the text size
    (all four of the module's), the layout does not depend on the reference
    font size: any two positive values give the same layout. *)
Theorem layout_independent_of_reference (PXR fst1 fst2 : R) (text : string)
    (padding : Padding) (bounds : Bounds) (f : TextConstraintFunction) (mfs : R)
    (Hf : textHomogeneous f) (H1 : 0 < fst1) (H2 : 0 < fst2) :
  layoutShieldText PXR fst1 text padding bounds f mfs
  = layoutShieldText PXR fst2 text padding bounds f mfs.
Proof.
  assert (Hfont : forall fst, 0 < fst ->
    fst * fittedScale PXR fst text padding bounds f
    = scale (f (availBounds PXR padding bounds) (estimatedTextBounds 1 text))).
  { intros fst Hfst. unfold fittedScale. rewrite estimatedTextBounds_scale.
    apply Hf. exact Hfst. }
  assert (Hpx : fontPx (layoutShieldText PXR fst1 text padding bounds f mfs)
                = fontPx (layoutShieldText PXR fst2 text padding bounds f mfs)).
  { rewrite !layoutShieldText_fontPx_eq, (Hfont fst1 H1), (Hfont fst2 H2). reflexivity. }
  unfold layoutShieldText in *. cbn [fontPx] in Hpx. rewrite Hpx. reflexivity.
Qed.

Lemma layout_independent_of_reference_witness :
  (0 < 12 /\ 0 < 20)
  /\ layoutShieldText 1 12 "111" zeroPadding (mkBounds 36 36) rectTextConstraint 14
     = layoutShieldText 1 20 "111" zeroPadding (mkBounds 36 36) rectTextConstraint 14.
Proof.
  split; [lra |].
  apply layout_independent_of_reference; [exact rect_homogeneous | lra | lra].
Defined.

(** ** Further properties of the text metrics estimator *)

Lemma addCharWidths_shift (len : R) (s : string) :
  addCharWidths len s = len + addCharWidths 0 s.
Proof.
  revert len. induction s as [| c s IH]; intros len; cbn [addCharWidths].
  - ring.
  - rewrite IH, (IH (0 + widthOfChar c)). ring.
Qed.

Lemma addCharWidths_app (len : R) (s1 s2 : string) :
  addCharWidths len (s1 ++ s2) = addCharWidths (addCharWidths len s1) s2.
Proof.
  revert len. induction s1 as [| c s1 IH]; intros len; cbn [addCharWidths append].
  - reflexivity.
  - apply IH.
Qed.

Lemma string_length_app (s1 s2 : string) :
  String.length (s1 ++ s2) = (String.length s1 + String.length s2)%nat.
Proof. induction s1 as [| c s1 IH]; cbn; [reflexivity | rewrite IH; reflexivity]. Qed.

(** The estimated width of a concatenation is the sum of the two estimates
    plus one inter-character gap of [fontSize / 12]. *)
Theorem widthOfText_app (s1 s2 : string) (fontSize : R) :
  widthOfText (s1 ++ s2) fontSize
  = widthOfText s1 fontSize + widthOfText s2 fontSize + fontSize / 12.
Proof.
  unfold widthOfText. rewrite string_length_app, plus_INR, addCharWidths_app.
  set (L := 0 + (INR (String.length s1) + INR (String.length s2) - 1) * 1 / 12).
  set (L1 := 0 + (INR (String.length s1) - 1) * 1 / 12).
  set (L2 := 0 + (INR (String.length s2) - 1) * 1 / 12).
  rewrite (addCharWidths_shift (addCharWidths L s1) s2), (addCharWidths_shift L s1),
    (addCharWidths_shift L1 s1), (addCharWidths_shift L2 s2).
  unfold L, L1, L2. field.
Qed.

Lemma widthOfChar_bounds (c : ascii) : 1 / 3 <= widthOfChar c <= 2 / 3.
Proof. destruct c as [[] [] [] [] [] [] [] []]; cbn; lra. Qed.

Lemma addCharWidths_bounds (len : R) (s : string) :
  len + INR (String.length s) / 3 <= addCharWidths len s
  <= len + 2 * INR (String.length s) / 3.
Proof.
  revert len. induction s as [| c s IH]; intros len; cbn [addCharWidths String.length].
  - cbn. lra.
  - rewrite S_INR. pose proof (widthOfChar_bounds c). specialize (IH (len + widthOfChar c)).
    lra.
Qed.

(** At a non-negative font size, a text of [n] characters is estimated
    between [fontSize * (n/3 + (n-1)/12)] and [fontSize * (2n/3 + (n-1)/12)];
    a non-empty text has a positive width at a positive font size. *)
Theorem widthOfText_bounds (text : string) (fontSize : R) (Hf : 0 <= fontSize) :
  let n := INR (String.length text) in
  fontSize * (n / 3 + (n - 1) / 12) <= widthOfText text fontSize
  <= fontSize * (2 * n / 3 + (n - 1) / 12)
  /\ (0 < fontSize -> text <> EmptyString -> 0 < widthOfText text fontSize).
Proof.
  cbv zeta. unfold widthOfText.
  pose proof (addCharWidths_bounds (0 + (INR (String.length text) - 1) * 1 / 12) text) as [Hl Hu].
  split; [split |].
  - apply Rmult_le_compat_l; [exact Hf | lra].
  - apply Rmult_le_compat_l; [exact Hf | lra].
  - intros Hpos Hne. apply Rmult_lt_0_compat; [exact Hpos |].
    destruct text as [| c s]; [congruence |].
    cbn [String.length] in Hl |- *. rewrite S_INR in Hl |- *. pose proof (pos_INR (String.length s)).
    lra.
Qed.

Lemma widthOfText_bounds_witness :
  0 <= 12
  /\ 0 < widthOfText "A26/A7" 12.
Proof.
  split; [lra |].
  destruct (widthOfText_bounds "A26/A7" 12 ltac:(lra)) as [_ H].
  apply H; [lra | discriminate].
Defined.

(** ** Further properties of the compositing renderer *)

Section RendererComposition.

Variable PXR : R.
Variable fontSizeThreshold : R.
Variable shieldFont : R -> string.
Variables bannerSizeH bannerPadding topPadding : R.
Variable backgroundFill : string.

(** Drawing the halo and then the fill with one layout records an outline and
    then a fill at the same position and font; the fill is made with the
    caller's fill colour and with the shadow reset to [null], and the caller's
    fill and stroke colours are left as they were. *)
Theorem halo_then_fill (ctx : Ctx) (text : string) (layout : TextLayout) :
  let ctx' := drawShieldText shieldFont
                (drawShieldHaloText PXR shieldFont ctx text layout) text layout in
  exists st1 st2 : DrawState,
    calls ctx' = FillText text (xBaseline layout) (yBaseline layout) st2
                 :: StrokeText text (xBaseline layout) (yBaseline layout) st1 :: calls ctx
    /\ font st1 = shieldFont (fontPx layout) /\ font st2 = shieldFont (fontPx layout)
    /\ shadowColor st2 = None /\ shadowBlur st2 = None
    /\ fillStyle st2 = fillStyle (state ctx)
    /\ fillStyle (state ctx') = fillStyle (state ctx)
    /\ strokeStyle (state ctx') = strokeStyle (state ctx)
    /\ canvasWidth ctx' = canvasWidth ctx.
Proof. cbn. do 2 eexists. repeat split; reflexivity. Qed.

(** At one banner index the outline and the fill of banner text are drawn at
    the same position in the same font; the fill is black, the outline and its
    shadow are in the background colour with zero blur. *)
Theorem banner_halo_and_fill_agree (ctx : Ctx) (text : string) (i : R) :
  let l := bannerLayout PXR fontSizeThreshold bannerSizeH bannerPadding ctx text in
  let y := yBaseline l + i * bannerSizeH - bannerPadding + topPadding in
  exists st1 st2 : DrawState,
    calls (drawBannerHaloText PXR fontSizeThreshold shieldFont bannerSizeH bannerPadding
             topPadding backgroundFill ctx text i)
      = StrokeText text (xBaseline l) y st1 :: calls ctx
    /\ calls (drawBannerText PXR fontSizeThreshold shieldFont bannerSizeH bannerPadding
                topPadding ctx text i)
      = FillText text (xBaseline l) y st2 :: calls ctx
    /\ font st1 = shieldFont (fontPx l) /\ font st2 = shieldFont (fontPx l)
    /\ fillStyle st2 = Some "black"%string
    /\ strokeStyle st1 = Some backgroundFill /\ shadowColor st1 = Some backgroundFill
    /\ shadowBlur st1 = Some 0 /\ lineWidth st1 = 2 * PXR.
Proof. cbn. do 2 eexists. repeat split; reflexivity. Qed.

(** The banner draws change the caller's colours: after [drawBannerText] the
    fill colour is black, and after [drawBannerHaloText] the stroke colour is
    the background colour and the line width [2 * PXR], while its shadow
    colour and blur are reset to [null]. *)
Theorem banner_draws_leave_colours (ctx : Ctx) (text : string) (i : R) :
  fillStyle (state (drawBannerText PXR fontSizeThreshold shieldFont bannerSizeH
                      bannerPadding topPadding ctx text i)) = Some "black"%string
  /\ let ctx' := drawBannerHaloText PXR fontSizeThreshold shieldFont bannerSizeH
                   bannerPadding topPadding backgroundFill ctx text i in
     strokeStyle (state ctx') = Some backgroundFill
     /\ lineWidth (state ctx') = 2 * PXR
     /\ shadowColor (state ctx') = None /\ shadowBlur (state ctx') = None
     /\ fillStyle (state ctx') = fillStyle (state ctx).
Proof. cbn. repeat split; reflexivity. Qed.

End RendererComposition.

Lemma Math_ceil_spec (x : R) :
  exists z : Z, Math_ceil x = IZR z /\ x <= Math_ceil x < x + 1.
Proof.
  exists (- Int_part (- x))%Z. unfold Math_ceil. split; [reflexivity |].
  destruct (base_Int_part (- x)) as [H1 H2]. rewrite opp_IZR. lra.
Qed.

(** [calculateTextWidth] returns the measured width rounded up to a whole
    pixel: an integer at least the measured width and less than one pixel
    above it. *)
Theorem calculateTextWidth_ceiling (shieldFont : R -> string)
    (measureTextWidth : string -> string -> R) (text : string) (fontSize : R) :
  let m := measureTextWidth (shieldFont fontSize) text in
  exists z : Z, calculateTextWidth shieldFont measureTextWidth text fontSize = IZR z
    /\ m <= calculateTextWidth shieldFont measureTextWidth text fontSize < m + 1.
Proof. cbv zeta. unfold calculateTextWidth. apply Math_ceil_spec. Qed.
